(** * Chapter1/Exercises/Calculator/calculator.cpp

    A shallow embedding of the four-function calculator and the properties of
    its arithmetic helpers and of the dispatch [switch] in [main].

    Conventions of the embedding.
    - A C++ [int] is a [Z] in the range of a 32-bit two's-complement word.
      The results of [+], [-] and [*] are brought back into that range by
      [Int.signed]; ISO C++ leaves signed overflow undefined, the embedding
      fixes the wrap-around of the usual targets.  [/] has no result when the
      divisor is zero or the quotient is not representable.
    - [main] is written in a small monad over the machine state: the local
      variable [result] (absent until first assigned), the log of calls to
      the arithmetic helpers, and what was sent to [std::cout].  A statement
      either falls to the next one, or leaves [main] through [return], or
      traps.
    - The three extractions from [std::cin] are taken as already done: [main]
      receives the two operands and the operator character.  Input on which
      an extraction fails is outside the embedding. *)

From Stdlib Require Import ZArith Lia Bool List String Ascii DecimalString.
From Stdlib Require DecimalPos DecimalZ.
Import ListNotations.

Local Open Scope Z_scope.

(** ** The [int] type *)

Module Int.

Definition modulus : Z := 2 ^ 32.
Definition half_modulus : Z := 2 ^ 31.
Definition min_signed : Z := - half_modulus.
Definition max_signed : Z := half_modulus - 1.

Definition in_range (z : Z) : Prop := min_signed <= z <= max_signed.

(** The signed reading of the low 32 bits of [z]. *)
Definition signed (z : Z) : Z :=
  let u := z mod modulus in
  if u <? half_modulus then u else u - modulus.

Definition add (a b : Z) : Z := signed (a + b).
Definition sub (a b : Z) : Z := signed (a - b).
Definition mul (a b : Z) : Z := signed (a * b).

(** [a / b] on [int]: the quotient truncated toward zero, when there is one. *)
Definition divs (a b : Z) : option Z :=
  if (b =? 0) || ((a =? min_signed) && (b =? -1)) then None
  else Some (a ÷ b).

End Int.

(** ** The program *)

Module Calculator.

(** *** The arithmetic helpers *)

Definition add (a b : Z) : Z := Int.add a b.
Definition subtract (a b : Z) : Z := Int.sub a b.
Definition multiply (a b : Z) : Z := Int.mul a b.
Definition divide (a b : Z) : option Z := Int.divs a b.

(** *** Machine state *)

Inductive fn : Type := Fadd | Fsubtract | Fmultiply | Fdivide.

Definition fn_eqb (f g : fn) : bool :=
  match f, g with
  | Fadd, Fadd | Fsubtract, Fsubtract
  | Fmultiply, Fmultiply | Fdivide, Fdivide => true
  | _, _ => false
  end.

(** What [operator<<] was applied to.  [PutIndeterminate] is the insertion
    of an [int] that was never assigned. *)
Inductive cout_item : Type :=
| PutStr (s : string)
| PutInt (n : Z)
| PutIndeterminate
| Endl.

Record machine : Type := Machine {
  result : option Z;
  calls : list (fn * Z * Z);
  cout : list cout_item
}.

Definition initial : machine :=
  {| result := None; calls := []; cout := [] |}.

(** *** Control flow *)

Inductive flow (A : Type) : Type :=
| Next (x : A)
| Return (status : Z)
| Trap.

Arguments Next {A} x.
Arguments Return {A} status.
Arguments Trap {A}.

Definition M (A : Type) : Type := machine -> flow A * machine.

Definition ret {A : Type} (x : A) : M A := fun m => (Next x, m).

Definition bind {A B : Type} (c : M A) (k : A -> M B) : M B :=
  fun m =>
    match c m with
    | (Next x, m') => k x m'
    | (Return status, m') => (Return status, m')
    | (Trap, m') => (Trap, m')
    end.

Declare Scope cpp_scope.
Delimit Scope cpp_scope with cpp.

Notation "x <- c ;; k" := (bind c (fun x => k))
  (at level 100, c at next level, right associativity) : cpp_scope.
Notation "c ;; k" := (bind c (fun _ => k))
  (at level 100, right associativity) : cpp_scope.

Local Open Scope cpp_scope.

Definition return_ {A : Type} (status : Z) : M A :=
  fun m => (Return status, m).

(** The value a helper returns, if any. *)
Definition apply_fn (f : fn) (a b : Z) : option Z :=
  match f with
  | Fadd => Some (add a b)
  | Fsubtract => Some (subtract a b)
  | Fmultiply => Some (multiply a b)
  | Fdivide => divide a b
  end.

Definition call (f : fn) (a b : Z) : M Z :=
  fun m =>
    let m' := {| result := result m;
                 calls := calls m ++ [(f, a, b)];
                 cout := cout m |} in
    match apply_fn f a b with
    | Some v => (Next v, m')
    | None => (Trap, m')
    end.

Definition set_result (v : Z) : M unit :=
  fun m => (Next tt, {| result := Some v; calls := calls m; cout := cout m |}).

Definition put (i : cout_item) : M unit :=
  fun m =>
    (Next tt, {| result := result m; calls := calls m; cout := cout m ++ [i] |}).

(** [std::cout << result] *)
Definition put_result : M unit :=
  fun m =>
    match result m with
    | Some v => put (PutInt v) m
    | None => put PutIndeterminate m
    end.

(** *** [switch] without [break]

    The labelled statements of the body in source order.  Control enters at
    the first label equal to the scrutinee and runs every statement from
    there to the end of the body; with no matching label (the body has no
    [default]) nothing runs. *)

Fixpoint run_from (body : list (ascii * M unit)) : M unit :=
  match body with
  | [] => ret tt
  | (_, s) :: rest => s ;; run_from rest
  end.

Fixpoint switch (c : ascii) (body : list (ascii * M unit)) : M unit :=
  match body with
  | [] => ret tt
  | (label, _) :: rest =>
      if Ascii.eqb c label then run_from body else switch c rest
  end.

(** *** [main] *)

Record input : Type := Input {
  in_a : Z;
  in_b : Z;
  in_operation : ascii
}.

Definition main (i : input) : M unit :=
  let a := in_a i in
  let b := in_b i in
  let operation := in_operation i in
  switch operation
    [ ("+"%char, r <- call Fadd a b ;; set_result r);
      ("-"%char, r <- call Fsubtract a b ;; set_result r);
      ("*"%char, r <- call Fmultiply a b ;; set_result r);
      ("/"%char,
        if b =? 0 then
          put (PutStr "Cannot divide by 0!") ;; put Endl ;; return_ (-1)
        else
          r <- call Fmultiply a b ;; set_result r) ] ;;
  put_result ;; put Endl ;;
  return_ 0.

(** *** Observations on a run *)

Definition run (a b : Z) (operation : ascii) : flow unit * machine :=
  main {| in_a := a; in_b := b; in_operation := operation |} initial.

Definition exit_status (r : flow unit * machine) : option Z :=
  match fst r with
  | Return status => Some status
  | _ => None
  end.

Definition newline : string := String "010"%char EmptyString.

Definition string_of_int (n : Z) : string :=
  NilZero.string_of_int (Z.to_int n).

(** The text on standard output; there is none to speak of once an
    indeterminate value has been inserted. *)
Fixpoint text (items : list cout_item) : option string :=
  match items with
  | [] => Some EmptyString
  | i :: rest =>
      match i, text rest with
      | PutStr s, Some t => Some (s ++ t)%string
      | PutInt n, Some t => Some (string_of_int n ++ t)%string
      | Endl, Some t => Some (newline ++ t)%string
      | _, _ => None
      end
  end.

Definition stdout (r : flow unit * machine) : option string :=
  text (cout (snd r)).

Definition called (f : fn) (r : flow unit * machine) : bool :=
  existsb (fun c => fn_eqb f (fst (fst c))) (calls (snd r)).

(** The machine left when the zero check of the ['/'] label leaves [main],
    reached with [result] holding [v] after the calls in [log]. *)
Definition refused (v : option Z) (log : list (fn * Z * Z)) :
  flow unit * machine :=
  (Return (-1),
   {| result := v; calls := log;
      cout := [PutStr "Cannot divide by 0!"; Endl] |}).

(** The machine left by a run that reaches the final insertion, after the
    calls in [log] followed by the call of the ['/'] label. *)
Definition printed (a b : Z) (log : list (fn * Z * Z)) :
  flow unit * machine :=
  (Return 0,
   {| result := Some (multiply a b);
      calls := log ++ [(Fmultiply, a, b)];
      cout := [PutInt (multiply a b); Endl] |}).

(** The operator characters the [switch] has a label for. *)
Definition recognized (c : ascii) : bool :=
  existsb (Ascii.eqb c) ["+"; "-"; "*"; "/"]%char.

(** The helper calls made by the statements of the ['+'], ['-'] and ['*']
    labels when control enters the [switch] at [operation]. *)
Definition fallen (a b : Z) (operation : ascii) : list (fn * Z * Z) :=
  if Ascii.eqb operation "+" then
    [(Fadd, a, b); (Fsubtract, a, b); (Fmultiply, a, b)]
  else if Ascii.eqb operation "-" then
    [(Fsubtract, a, b); (Fmultiply, a, b)]
  else if Ascii.eqb operation "*" then
    [(Fmultiply, a, b)]
  else [].

(** The machine left by a run in which no labelled statement ran. *)
Definition skipped : flow unit * machine :=
  (Return 0,
   {| result := None; calls := []; cout := [PutIndeterminate; Endl] |}).

(** The diagnostic of the zero check, as a line of text. *)
Definition diagnostic : string := ("Cannot divide by 0!" ++ newline)%string.

(** Reading a decimal numeral back. *)
Definition int_of_string (s : string) : option Z :=
  option_map Z.of_int (NilZero.int_of_string s).

End Calculator.

Import Calculator.

(** ** Facts about [int] arithmetic *)

Section IntFacts.

Lemma modulus_eq : Int.modulus = 4294967296.
Proof. reflexivity. Qed.

Lemma half_modulus_eq : Int.half_modulus = 2147483648.
Proof. reflexivity. Qed.

Lemma in_range_iff (z : Z) :
  Int.in_range z <-> -2147483648 <= z <= 2147483647.
Proof.
  unfold Int.in_range, Int.min_signed, Int.max_signed.
  rewrite half_modulus_eq. lia.
Qed.

Lemma signed_range (z : Z) : Int.in_range (Int.signed z).
Proof.
  apply in_range_iff. unfold Int.signed.
  rewrite modulus_eq, half_modulus_eq.
  pose proof (Z.mod_pos_bound z 4294967296 ltac:(lia)) as Hu.
  destruct (Z.ltb_spec (z mod 4294967296) 2147483648); lia.
Qed.

Lemma signed_congruent (z : Z) :
  Int.signed z mod Int.modulus = z mod Int.modulus.
Proof.
  unfold Int.signed. rewrite modulus_eq, half_modulus_eq.
  destruct (Z.ltb_spec (z mod 4294967296) 2147483648).
  - apply Z.mod_mod. lia.
  - replace (z mod 4294967296 - 4294967296)
      with (z mod 4294967296 + (-1) * 4294967296) by lia.
    rewrite Z.mod_add by lia. apply Z.mod_mod. lia.
Qed.

Lemma signed_exact (z : Z) : Int.in_range z -> Int.signed z = z.
Proof.
  intros Hz. apply (proj1 (in_range_iff z)) in Hz. unfold Int.signed.
  rewrite modulus_eq, half_modulus_eq.
  destruct (Z_lt_le_dec z 0) as [Hneg | Hpos].
  - assert (Hm : z mod 4294967296 = z + 4294967296).
    { symmetry. apply (Z.mod_unique_pos z 4294967296 (-1)); lia. }
    rewrite Hm. destruct (Z.ltb_spec (z + 4294967296) 2147483648); lia.
  - rewrite Z.mod_small by lia.
    destruct (Z.ltb_spec z 2147483648); lia.
Qed.

(** The remainder left by the truncated quotient is smaller than the
    divisor and never of the sign opposite to the dividend's. *)
Lemma quot_truncates (a b : Z) :
  b <> 0 ->
  Z.abs (a - (a ÷ b) * b) < Z.abs b /\ 0 <= (a - (a ÷ b) * b) * a.
Proof.
  intros Hb.
  assert (Hr : a - (a ÷ b) * b = Z.rem a b).
  { pose proof (Z.quot_rem' a b). lia. }
  rewrite Hr. split.
  - apply Z.rem_bound_abs. exact Hb.
  - apply Z.rem_sign_mul. exact Hb.
Qed.

Lemma quot_in_range_iff (a b : Z) :
  Int.in_range a -> b <> 0 ->
  Int.in_range (a ÷ b) <-> ~ (a = Int.min_signed /\ b = -1).
Proof.
  intros Ha Hb. apply (proj1 (in_range_iff a)) in Ha. rewrite in_range_iff.
  unfold Int.min_signed. rewrite half_modulus_eq.
  destruct (quot_truncates a b Hb) as [Hlt Hsg].
  set (q := a ÷ b) in *.
  destruct (Z.eq_dec b (-1)) as [-> | Hb1].
  - assert (q = - a) by lia. lia.
  - split; [lia | intros _]. nia.
Qed.

Lemma divs_representable (a b : Z) :
  Int.in_range a -> b <> 0 -> Int.in_range (a ÷ b) ->
  Int.divs a b = Some (a ÷ b).
Proof.
  intros Ha Hb Hq. apply (quot_in_range_iff a b Ha Hb) in Hq.
  unfold Int.divs.
  destruct (Z.eqb_spec b 0) as [? | _]; [contradiction |].
  destruct (Z.eqb_spec a Int.min_signed), (Z.eqb_spec b (-1));
    simpl; try reflexivity.
  exfalso. apply Hq. split; assumption.
Qed.

Lemma divs_overflow (a b : Z) :
  Int.in_range a -> b <> 0 -> ~ Int.in_range (a ÷ b) ->
  Int.divs a b = None.
Proof.
  intros Ha Hb Hq. unfold Int.divs.
  destruct (Z.eqb_spec b 0) as [? | _]; [contradiction |].
  destruct (Z.eqb_spec a Int.min_signed), (Z.eqb_spec b (-1));
    simpl; try reflexivity;
    exfalso; apply Hq; apply (quot_in_range_iff a b Ha Hb); tauto.
Qed.

End IntFacts.

(** ** The arithmetic helpers *)

(** C3, as the code has it.  For all [int] values [a] and [b]: [add],
    [subtract] and [multiply] return [a + b], [a - b] and [a * b] whenever
    that value is representable as an [int]; in every case they return an
    [int] congruent to it modulo 2^32.  For [b] nonzero, [divide] returns the
    quotient truncated toward zero (what is left of [a] is smaller in
    magnitude than [b] and never of the sign opposite to [a]) whenever that
    quotient is representable, that is unless [a] is [INT_MIN] and [b] is
    [-1]; there [divide] has no result. *)
Theorem helpers_exact_when_representable (a b : Z) :
  Int.in_range a -> Int.in_range b ->
  (Int.in_range (a + b) -> add a b = a + b) /\
  (Int.in_range (a - b) -> subtract a b = a - b) /\
  (Int.in_range (a * b) -> multiply a b = a * b) /\
  (b <> 0 -> ~ (a = Int.min_signed /\ b = -1) ->
   Int.in_range (a ÷ b) /\
   divide a b = Some (a ÷ b) /\
   Z.abs (a - (a ÷ b) * b) < Z.abs b /\
   0 <= (a - (a ÷ b) * b) * a) /\
  (Int.in_range (add a b) /\
   add a b mod Int.modulus = (a + b) mod Int.modulus) /\
  (Int.in_range (subtract a b) /\
   subtract a b mod Int.modulus = (a - b) mod Int.modulus) /\
  (Int.in_range (multiply a b) /\
   multiply a b mod Int.modulus = (a * b) mod Int.modulus) /\
  (a = Int.min_signed -> b = -1 ->
   ~ Int.in_range (a ÷ b) /\ divide a b = None).
Proof.
  intros Ha Hb.
  assert (Hquot : b <> 0 -> ~ (a = Int.min_signed /\ b = -1) ->
                  Int.in_range (a ÷ b)).
  { intros Hb0 Hne. apply (quot_in_range_iff a b Ha Hb0). exact Hne. }
  unfold add, subtract, multiply, divide, Int.add, Int.sub, Int.mul.
  split; [apply signed_exact |].
  split; [apply signed_exact |].
  split; [apply signed_exact |].
  split.
  { intros Hb0 Hne. specialize (Hquot Hb0 Hne).
    split; [exact Hquot |].
    split; [apply divs_representable; assumption |].
    apply (quot_truncates a b Hb0). }
  split; [split; [apply signed_range | apply signed_congruent] |].
  split; [split; [apply signed_range | apply signed_congruent] |].
  split; [split; [apply signed_range | apply signed_congruent] |].
  intros -> ->. split; [| reflexivity].
  intros [_ Hmax]. apply Hmax. reflexivity.
Qed.

(** C3 at [INT_MIN] and [-1], both of them [int] values: the sum and the
    product are not representable and [add] and [multiply] return the
    wrapped values; the quotient is not representable and [divide] has no
    result. *)
Lemma helpers_not_exact_at_int_min_and_minus_one :
  Int.in_range (-2147483648) /\ Int.in_range (-1) /\ -1 <> 0 /\
  add (-2147483648) (-1) = 2147483647 /\
  add (-2147483648) (-1) <> -2147483648 + -1 /\
  multiply (-2147483648) (-1) = -2147483648 /\
  multiply (-2147483648) (-1) <> -2147483648 * -1 /\
  divide (-2147483648) (-1) = None /\
  divide (-2147483648) (-1) <> Some (-2147483648 ÷ -1).
Proof.
  repeat match goal with |- _ /\ _ => split end;
    try reflexivity;
    try (split; discriminate);
    intros H; discriminate H.
Qed.

(** ** What [main] does, label by label *)

Section Dispatch.

Variables a b : Z.

Lemma run_plus :
  run a b "+" =
  let log := [(Fadd, a, b); (Fsubtract, a, b); (Fmultiply, a, b)] in
  if b =? 0 then refused (Some (multiply a b)) log else printed a b log.
Proof. unfold run, main. simpl in_b. destruct (b =? 0); reflexivity. Qed.

Lemma run_minus :
  run a b "-" =
  let log := [(Fsubtract, a, b); (Fmultiply, a, b)] in
  if b =? 0 then refused (Some (multiply a b)) log else printed a b log.
Proof. unfold run, main. simpl in_b. destruct (b =? 0); reflexivity. Qed.

Lemma run_times :
  run a b "*" =
  let log := [(Fmultiply, a, b)] in
  if b =? 0 then refused (Some (multiply a b)) log else printed a b log.
Proof. unfold run, main. simpl in_b. destruct (b =? 0); reflexivity. Qed.

Lemma run_slash :
  run a b "/" = if b =? 0 then refused None [] else printed a b [].
Proof. unfold run, main. simpl in_b. destruct (b =? 0); reflexivity. Qed.

Lemma recognized_cases (op : ascii) :
  recognized op = true ->
  op = "+"%char \/ op = "-"%char \/ op = "*"%char \/ op = "/"%char.
Proof.
  unfold recognized. simpl. rewrite !orb_true_iff, !Ascii.eqb_eq.
  intuition discriminate.
Qed.

Lemma unrecognized_labels (op : ascii) :
  recognized op = false ->
  Ascii.eqb op "+" = false /\ Ascii.eqb op "-" = false /\
  Ascii.eqb op "*" = false /\ Ascii.eqb op "/" = false.
Proof.
  unfold recognized. simpl. rewrite !orb_false_iff. tauto.
Qed.

End Dispatch.

(** ** The dispatch, for all inputs *)

(** C8.  For every operator character other than [+], [-], [*] and [/], no
    labelled statement of the [switch] runs (no helper is called, [result] is
    never assigned) and the program inserts the unassigned [result] into
    [std::cout], followed by [std::endl], before returning 0. *)
Theorem unrecognized_operator_inserts_unassigned_result
    (a b : Z) (op : ascii) :
  recognized op = false ->
  run a b op =
    (Return 0,
     {| result := None; calls := []; cout := [PutIndeterminate; Endl] |}) /\
  stdout (run a b op) = None.
Proof.
  intros Hop.
  destruct (unrecognized_labels op Hop) as (Hp & Hm & Ht & Hs).
  assert (Hrun : run a b op =
    (Return 0,
     {| result := None; calls := []; cout := [PutIndeterminate; Endl] |})).
  { unfold run, main. simpl in_operation. unfold switch.
    rewrite Hp, Hm, Ht, Hs. reflexivity. }
  split; [exact Hrun | rewrite Hrun; reflexivity].
Qed.

(** The operator [%] on [6 3]. *)
Lemma unrecognized_operator_witness :
  recognized "%" = false /\
  cout (snd (run 6 3 "%")) = [PutIndeterminate; Endl].
Proof.
  split; [reflexivity |].
  destruct (unrecognized_operator_inserts_unassigned_result 6 3 "%" eq_refl)
    as [Hrun _].
  rewrite Hrun. reflexivity.
Defined.

(** C9.  For all [a] and [b] with [b = 0] and every operator among [+], [-],
    [*] and [/], the program prints [Cannot divide by 0!] and a newline and
    returns -1: the statements of the labels from the operator's own down to
    ['*'] run in source order (their helpers are called on [a] and [b]) and
    control falls into the zero check of the ['/'] label. *)
Theorem zero_divisor_refused_under_every_label (a b : Z) (op : ascii) :
  b = 0 -> recognized op = true ->
  fst (run a b op) = Return (-1) /\
  exit_status (run a b op) = Some (-1) /\
  cout (snd (run a b op)) = [PutStr "Cannot divide by 0!"; Endl] /\
  stdout (run a b op) = Some ("Cannot divide by 0!" ++ newline)%string /\
  (op = "+"%char ->
   calls (snd (run a b op)) =
     [(Fadd, a, b); (Fsubtract, a, b); (Fmultiply, a, b)]) /\
  (op = "-"%char ->
   calls (snd (run a b op)) = [(Fsubtract, a, b); (Fmultiply, a, b)]) /\
  (op = "*"%char -> calls (snd (run a b op)) = [(Fmultiply, a, b)]) /\
  (op = "/"%char -> calls (snd (run a b op)) = []).
Proof.
  intros -> Hop.
  destruct (recognized_cases op Hop) as [-> | [-> | [-> | ->]]];
    [rewrite run_plus | rewrite run_minus | rewrite run_times
     | rewrite run_slash];
    cbv zeta; change (0 =? 0) with true; cbv iota; unfold refused;
    repeat split; try reflexivity; intros Heq; discriminate Heq.
Qed.

(** [6 0 +]. *)
Lemma zero_divisor_witness :
  recognized "+" = true /\
  stdout (run 6 0 "+") = Some ("Cannot divide by 0!" ++ newline)%string.
Proof.
  split; [reflexivity |].
  exact (proj1 (proj2 (proj2 (proj2
    (zero_divisor_refused_under_every_label 6 0 "+" eq_refl eq_refl))))).
Defined.



(** The helpers on [-7] and [2]: the quotient is [-3], not the floor [-4]. *)
Lemma helpers_witness :
  Int.in_range (-7) /\ Int.in_range 2 /\
  add (-7) 2 = -7 + 2 /\ divide (-7) 2 = Some (-7 ÷ 2).
Proof.
  assert (Ha : Int.in_range (-7)) by (split; discriminate).
  assert (Hb : Int.in_range 2) by (split; discriminate).
  assert (H2 : 2 <> 0) by discriminate.
  assert (Hne : ~ (-7 = Int.min_signed /\ 2 = -1)).
  { intros [_ H]. discriminate H. }
  destruct (helpers_exact_when_representable (-7) 2 Ha Hb)
    as (Hadd & _ & _ & Hdiv & _).
  destruct (Hdiv H2 Hne) as (_ & Hquot & _).
  split; [exact Ha |]. split; [exact Hb |]. split.
  - apply Hadd. split; discriminate.
  - exact Hquot.
Defined.

(** ** The dispatch, on the scenarios *)

(** C1.  On [6 3 -] the program prints 18, not the difference 3: after
    [subtract] the statements of the ['*'] and ['/'] labels run as well, and
    [multiply] is called twice. *)
Theorem minus_6_3_prints_product :
  subtract 6 3 = 3 /\
  stdout (run 6 3 "-") = Some ("18" ++ newline)%string /\
  stdout (run 6 3 "-") <> Some ("3" ++ newline)%string /\
  calls (snd (run 6 3 "-")) =
    [(Fsubtract, 6, 3); (Fmultiply, 6, 3); (Fmultiply, 6, 3)].
Proof.
  repeat split; try reflexivity. intros H; discriminate H.
Qed.

(** C2.  On [6 0 +] the operator is not ['/'], yet the program prints
    [Cannot divide by 0!] and returns -1. *)
Theorem plus_6_0_refused :
  stdout (run 6 0 "+") = Some ("Cannot divide by 0!" ++ newline)%string /\
  exit_status (run 6 0 "+") = Some (-1) /\
  add 6 0 = 6 /\
  calls (snd (run 6 0 "+")) = [(Fadd, 6, 0); (Fsubtract, 6, 0); (Fmultiply, 6, 0)].
Proof.
  repeat split; reflexivity.
Qed.

(** C4.  On [6 3 +] the program prints 18 and a newline, not 9. *)
Theorem plus_6_3_prints_18 :
  add 6 3 = 9 /\
  stdout (run 6 3 "+") = Some ("18" ++ newline)%string /\
  stdout (run 6 3 "+") <> Some ("9" ++ newline)%string.
Proof.
  repeat split; try reflexivity. intros H; discriminate H.
Qed.

(** C5.  On [6 3 /] the program prints 18 and a newline, not 2: the ['/']
    label calls [multiply], and [divide] is not called. *)
Theorem slash_6_3_prints_18 :
  divide 6 3 = Some 2 /\
  stdout (run 6 3 "/") = Some ("18" ++ newline)%string /\
  stdout (run 6 3 "/") <> Some ("2" ++ newline)%string /\
  calls (snd (run 6 3 "/")) = [(Fmultiply, 6, 3)].
Proof.
  repeat split; try reflexivity. intros H; discriminate H.
Qed.

(** C6.  On [6 3 *] the program prints 18 followed by a newline (and
    returns 0). *)
Theorem times_6_3_prints_18 :
  stdout (run 6 3 "*") = Some ("18" ++ newline)%string /\
  exit_status (run 6 3 "*") = Some 0.
Proof.
  split; reflexivity.
Qed.

(** C7.  On [6 0 /] the program prints [Cannot divide by 0!] followed by a
    newline and exits with a non-zero status (-1). *)
Theorem slash_6_0_refused :
  stdout (run 6 0 "/") = Some ("Cannot divide by 0!" ++ newline)%string /\
  exit_status (run 6 0 "/") = Some (-1) /\
  exit_status (run 6 0 "/") <> Some 0 /\
  calls (snd (run 6 0 "/")) = [].
Proof.
  repeat split; try reflexivity. intros H; discriminate H.
Qed.

(** ** Every run of [main] *)

Section EveryRun.

Variables a b : Z.

Lemma run_unrecognized (op : ascii) :
  recognized op = false -> run a b op = skipped.
Proof.
  intros Hop.
  destruct (unrecognized_labels op Hop) as (Hp & Hm & Ht & Hs).
  unfold run, main. simpl in_operation. unfold switch.
  rewrite Hp, Hm, Ht, Hs. reflexivity.
Qed.

Lemma run_recognized (op : ascii) :
  recognized op = true ->
  run a b op =
    if b =? 0 then
      refused (if Ascii.eqb op "/" then None else Some (multiply a b))
              (fallen a b op)
    else printed a b (fallen a b op).
Proof.
  intros Hop.
  destruct (recognized_cases op Hop) as [-> | [-> | [-> | ->]]];
    [rewrite run_plus | rewrite run_minus | rewrite run_times
     | rewrite run_slash]; reflexivity.
Qed.

(** The three ways a run can end. *)
Lemma run_shape (op : ascii) :
  (recognized op = false /\ run a b op = skipped) \/
  (recognized op = true /\ b = 0 /\
   exists v, run a b op = refused v (fallen a b op)) \/
  (recognized op = true /\ b <> 0 /\
   run a b op = printed a b (fallen a b op)).
Proof.
  destruct (recognized op) eqn:Hop.
  - right. rewrite (run_recognized op Hop).
    destruct (Z.eqb_spec b 0) as [Hb | Hb].
    + left. repeat split; trivial. eexists. reflexivity.
    + right. repeat split; trivial.
  - left. split; [reflexivity | apply run_unrecognized; exact Hop].
Qed.

Lemma fallen_shape (op : ascii) :
  fallen a b op = [(Fadd, a, b); (Fsubtract, a, b); (Fmultiply, a, b)] \/
  fallen a b op = [(Fsubtract, a, b); (Fmultiply, a, b)] \/
  fallen a b op = [(Fmultiply, a, b)] \/
  fallen a b op = [].
Proof.
  unfold fallen.
  destruct (Ascii.eqb op "+"); [tauto |].
  destruct (Ascii.eqb op "-"); [tauto |].
  destruct (Ascii.eqb op "*"); tauto.
Qed.

End EveryRun.

(** ** Decimal numerals *)

Lemma string_of_int_head (n : Z) :
  exists c s, string_of_int n = String c s /\ c <> "C"%char.
Proof.
  unfold string_of_int.
  destruct (Z.to_int n) as [d | d]; simpl.
  - destruct d; simpl; do 2 eexists; (split; [reflexivity | discriminate]).
  - do 2 eexists. split; [reflexivity | discriminate].
Qed.

Lemma int_of_string_of_int (n : Z) : int_of_string (string_of_int n) = Some n.
Proof.
  unfold int_of_string, string_of_int.
  rewrite NilZero.isi.
  - simpl. f_equal. apply DecimalZ.of_to.
  - destruct n; simpl; try discriminate.
    intros H. injection H as H. revert H. apply DecimalPos.Unsigned.to_uint_nonnil.
  - destruct n; simpl; try discriminate.
    intros H. injection H as H. revert H. apply DecimalPos.Unsigned.to_uint_nonnil.
Qed.

Lemma append_newline_inj (s t : string) :
  (s ++ newline)%string = (t ++ newline)%string -> s = t.
Proof.
  revert t. induction s as [| c s IH]; intros [| d t] H; simpl in H.
  - reflexivity.
  - injection H as _ H. destruct t; discriminate H.
  - injection H as _ H. destruct s; discriminate H.
  - injection H as -> H. f_equal. apply IH. exact H.
Qed.

(** ** Properties of every run *)

(** X1.  Whatever the operands and the operator character, [main] leaves
    through a [return] (it neither traps nor runs off its end): with -1 when
    the operator has a label and [b] is zero, with 0 in every other case. *)
Theorem exit_status_of_every_run (a b : Z) (op : ascii) :
  exit_status (run a b op) =
    Some (if recognized op && (b =? 0) then -1 else 0).
Proof.
  destruct (run_shape a b op) as [[Hop ->] | [(Hop & Hb & v & ->) | (Hop & Hb & ->)]];
    rewrite Hop; simpl.
  - reflexivity.
  - subst b. reflexivity.
  - apply Z.eqb_neq in Hb. rewrite Hb. reflexivity.
Qed.

(** X2.  The text on standard output is the diagnostic line exactly when the
    operator has a label and [b] is zero. *)
Theorem diagnostic_exactly_on_zero_divisor (a b : Z) (op : ascii) :
  stdout (run a b op) = Some diagnostic <-> recognized op = true /\ b = 0.
Proof.
  destruct (run_shape a b op) as [[Hop ->] | [(Hop & Hb & v & ->) | (Hop & Hb & ->)]].
  - split.
    + intros H. discriminate H.
    + intros [H _]. congruence.
  - split; [intros _; split; assumption | intros _; reflexivity].
  - split; [| intros [_ H]; contradiction].
    intros H. exfalso.
    destruct (string_of_int_head (multiply a b)) as (c & s & Hs & Hc).
    unfold stdout, printed in H. simpl in H. rewrite Hs in H.
    injection H as H _. apply Hc. exact H.
Qed.

(** X3.  Standard output has a determinate text exactly when the operator
    has a label; with any other character the inserted value is the
    unassigned [result]. *)
Theorem stdout_determinate_iff_recognized (a b : Z) (op : ascii) :
  (exists s, stdout (run a b op) = Some s) <-> recognized op = true.
Proof.
  destruct (run_shape a b op) as [[Hop ->] | [(Hop & Hb & v & ->) | (Hop & Hb & ->)]].
  - split.
    + intros [s H]. discriminate H.
    + intros H. congruence.
  - split; [intros _; assumption | intros _; eexists; reflexivity].
  - split; [intros _; assumption | intros _; eexists; reflexivity].
Qed.

(** X4.  Every run inserts exactly one item into [std::cout] and then
    [std::endl]: the diagnostic, or the product, or the unassigned [result].
    Nothing else is ever written. *)
Theorem every_run_writes_one_line (a b : Z) (op : ascii) :
  exists item,
    cout (snd (run a b op)) = [item; Endl] /\
    (item = PutStr "Cannot divide by 0!" \/
     item = PutInt (multiply a b) \/
     item = PutIndeterminate).
Proof.
  destruct (run_shape a b op) as [[Hop ->] | [(Hop & Hb & v & ->) | (Hop & Hb & ->)]];
    eexists; (split; [reflexivity | tauto]).
Qed.

(** X5.  No run calls [divide]; every helper call a run makes is on the two
    operands as read, in that order; and a run makes at most four calls. *)
Theorem no_run_calls_divide (a b : Z) (op : ascii) :
  called Fdivide (run a b op) = false /\
  Forall (fun c => fst (fst c) <> Fdivide /\ snd (fst c) = a /\ snd c = b)
         (calls (snd (run a b op))) /\
  (List.length (calls (snd (run a b op))) <= 4)%nat.
Proof.
  destruct (run_shape a b op) as [[Hop ->] | [(Hop & Hb & v & ->) | (Hop & Hb & ->)]];
    unfold called, skipped, refused, printed; cbn [snd calls];
    try (destruct (fallen_shape a b op) as [-> | [-> | [-> | ->]]]);
    (split; [reflexivity |]);
    (split; [| simpl; lia]);
    repeat constructor; discriminate.
Qed.

(** X6.  Among the operators that have a label, the choice of operator does
    not change what is written nor the exit status: only the log of helper
    calls differs. *)
Theorem recognized_operators_indistinguishable (a b : Z) (op op' : ascii) :
  recognized op = true -> recognized op' = true ->
  cout (snd (run a b op)) = cout (snd (run a b op')) /\
  stdout (run a b op) = stdout (run a b op') /\
  exit_status (run a b op) = exit_status (run a b op').
Proof.
  intros Hop Hop'.
  rewrite (run_recognized a b op Hop), (run_recognized a b op' Hop').
  destruct (b =? 0); repeat split; reflexivity.
Qed.

(** [6 3] under [+] and under [/]. *)
Lemma recognized_operators_witness :
  recognized "+" = true /\ recognized "/" = true /\
  stdout (run 6 3 "+") = stdout (run 6 3 "/").
Proof.
  split; [reflexivity |]. split; [reflexivity |].
  exact (proj1 (proj2
    (recognized_operators_indistinguishable 6 3 "+" "/" eq_refl eq_refl))).
Defined.

(** X7.  With [b] nonzero, the helper calls are, in order and all on
    [(a, b)]: for [+], [add], [subtract], [multiply], [multiply]; for [-],
    [subtract], [multiply], [multiply]; for [*], [multiply] twice; for [/],
    [multiply] once.  Under each of the four operators [result] ends holding
    the value of the last call, [multiply a b], and that value is the one
    inserted into [std::cout]: what the earlier calls returned has been
    overwritten by then. *)
Theorem calls_with_nonzero_divisor (a b : Z) :
  b <> 0 ->
  calls (snd (run a b "+")) =
    [(Fadd, a, b); (Fsubtract, a, b); (Fmultiply, a, b); (Fmultiply, a, b)] /\
  calls (snd (run a b "-")) =
    [(Fsubtract, a, b); (Fmultiply, a, b); (Fmultiply, a, b)] /\
  calls (snd (run a b "*")) = [(Fmultiply, a, b); (Fmultiply, a, b)] /\
  calls (snd (run a b "/")) = [(Fmultiply, a, b)] /\
  (forall op, recognized op = true ->
     apply_fn Fmultiply a b = Some (multiply a b) /\
     result (snd (run a b op)) = Some (multiply a b) /\
     cout (snd (run a b op)) = [PutInt (multiply a b); Endl]).
Proof.
  intros Hb. apply Z.eqb_neq in Hb.
  rewrite run_plus, run_minus, run_times, run_slash.
  cbv zeta. rewrite Hb.
  repeat match goal with |- _ /\ _ => split end; try reflexivity.
  intros op Hop. rewrite (run_recognized a b op Hop), Hb.
  repeat split; reflexivity.
Qed.

(** [6 3]. *)
Lemma calls_with_nonzero_divisor_witness :
  3 <> 0 /\
  calls (snd (run 6 3 "+")) =
    [(Fadd, 6, 3); (Fsubtract, 6, 3); (Fmultiply, 6, 3); (Fmultiply, 6, 3)] /\
  result (snd (run 6 3 "+")) = Some (multiply 6 3).
Proof.
  assert (H3 : 3 <> 0) by discriminate.
  destruct (calls_with_nonzero_divisor 6 3 H3) as (Hplus & _ & _ & _ & Hres).
  split; [exact H3 |]. split; [exact Hplus |].
  exact (proj1 (proj2 (Hres "+"%char eq_refl))).
Defined.

(** X8.  With nonzero divisors and operators that have a label, the line
    written determines the product: it is the decimal numeral of
    [multiply a b] (reading it back gives that value), so two runs that write
    the same text computed the same product. *)
Theorem output_line_determines_product
    (a b a' b' : Z) (op op' : ascii) :
  b <> 0 -> b' <> 0 -> recognized op = true -> recognized op' = true ->
  (exists line,
     stdout (run a b op) = Some (line ++ newline)%string /\
     int_of_string line = Some (multiply a b)) /\
  (stdout (run a b op) = stdout (run a' b' op') ->
   multiply a b = multiply a' b').
Proof.
  intros Hb Hb' Hop Hop'.
  apply Z.eqb_neq in Hb, Hb'.
  rewrite (run_recognized a b op Hop), (run_recognized a' b' op' Hop').
  rewrite Hb, Hb'. unfold stdout, printed. cbn [snd cout text].
  split.
  - exists (string_of_int (multiply a b)). split; [reflexivity |].
    apply int_of_string_of_int.
  - intros H. injection H as H.
    apply append_newline_inj in H.
    apply (f_equal int_of_string) in H.
    rewrite !int_of_string_of_int in H. congruence.
Qed.

(** [6 3 +] and [9 2 /] both write [18]. *)
Lemma output_line_witness :
  3 <> 0 /\ 2 <> 0 /\ recognized "+" = true /\ recognized "/" = true /\
  (stdout (run 6 3 "+") = stdout (run 9 2 "/") ->
   multiply 6 3 = multiply 9 2).
Proof.
  assert (H3 : 3 <> 0) by discriminate.
  assert (H2 : 2 <> 0) by discriminate.
  split; [exact H3 |]. split; [exact H2 |].
  split; [reflexivity |]. split; [reflexivity |].
  exact (proj2
    (output_line_determines_product 6 3 9 2 "+" "/" H3 H2 eq_refl eq_refl)).
Defined.

(** ** The helpers together *)

Lemma signed_eq_of_congruent (x y : Z) :
  x mod Int.modulus = y mod Int.modulus -> Int.signed x = Int.signed y.
Proof. intros H. unfold Int.signed. rewrite H. reflexivity. Qed.

Lemma rem_within_dividend (a b : Z) :
  b <> 0 -> Z.abs (Z.rem a b) <= Z.abs a.
Proof.
  intros Hb. rewrite <- Z.rem_abs by exact Hb.
  rewrite Z.rem_mod_nonneg by lia.
  apply Z.mod_le; lia.
Qed.

(** What the truncated quotient gives back when multiplied by the divisor
    lies between zero and the dividend, and so does the quotient in
    magnitude. *)
Lemma quot_within_dividend (a b : Z) :
  b <> 0 ->
  Z.abs (a ÷ b) <= Z.abs a /\
  (0 <= (a ÷ b) * b <= a \/ a <= (a ÷ b) * b <= 0).
Proof.
  intros Hb.
  pose proof (Z.quot_rem' a b) as Hqr.
  pose proof (rem_within_dividend a b Hb) as Hr.
  pose proof (Z.rem_sign_mul a b Hb) as Hs.
  assert (Hbetween : 0 <= (a ÷ b) * b <= a \/ a <= (a ÷ b) * b <= 0).
  { destruct (Z.lt_trichotomy a 0) as [Hneg | [Hz | Hpos]].
    - right. assert (Z.rem a b <= 0) by nia. lia.
    - left. subst a. rewrite Z.quot_0_l by exact Hb. lia.
    - left. assert (0 <= Z.rem a b) by nia. lia. }
  split; [| exact Hbetween].
  assert (Hqb : Z.abs ((a ÷ b) * b) <= Z.abs a) by lia.
  rewrite Z.abs_mul in Hqb. nia.
Qed.

(** X9.  [subtract] undoes [add] and [add] undoes [subtract], for every
    [int] value [a] and every [b], also when the intermediate sum or
    difference wraps around. *)
Theorem add_subtract_round_trip (a b : Z) :
  Int.in_range a ->
  subtract (add a b) b = a /\ add (subtract a b) b = a.
Proof.
  intros Ha.
  unfold subtract, add, Int.sub, Int.add.
  split; rewrite <- (signed_exact a Ha) at 2;
    apply signed_eq_of_congruent.
  - rewrite Zminus_mod, signed_congruent, <- Zminus_mod. f_equal. lia.
  - rewrite Zplus_mod, signed_congruent, <- Zplus_mod. f_equal. lia.
Qed.

(** [INT_MAX + 1] wraps, and subtracting 1 comes back. *)
Lemma add_subtract_round_trip_witness :
  Int.in_range 2147483647 /\
  subtract (add 2147483647 1) 1 = 2147483647.
Proof.
  assert (Ha : Int.in_range 2147483647) by (split; discriminate).
  split; [exact Ha |].
  exact (proj1 (add_subtract_round_trip 2147483647 1 Ha)).
Defined.

(** X10.  [divide] undoes [multiply]: for an [int] value [a] and a nonzero
    [b] whose product is representable, [divide (multiply a b) b] is [a]. *)
Theorem multiply_divide_round_trip (a b : Z) :
  Int.in_range a -> b <> 0 -> Int.in_range (a * b) ->
  divide (multiply a b) b = Some a.
Proof.
  intros Ha Hb Hab.
  unfold divide, multiply, Int.mul.
  rewrite (signed_exact (a * b) Hab).
  rewrite <- (Z.quot_mul a b Hb) at 2.
  apply divs_representable; try assumption.
  rewrite Z.quot_mul by exact Hb. exact Ha.
Qed.

(** [-6] times [3] and back. *)
Lemma multiply_divide_round_trip_witness :
  Int.in_range (-6) /\ 3 <> 0 /\ Int.in_range (-6 * 3) /\
  divide (multiply (-6) 3) 3 = Some (-6).
Proof.
  assert (Ha : Int.in_range (-6)) by (split; discriminate).
  assert (Hb : 3 <> 0) by discriminate.
  assert (Hab : Int.in_range (-6 * 3)) by (split; discriminate).
  split; [exact Ha |]. split; [exact Hb |]. split; [exact Hab |].
  exact (multiply_divide_round_trip (-6) 3 Ha Hb Hab).
Defined.

(** X11.  On [int] values, [divide] has a result exactly when [b] is nonzero
    and the pair is not [INT_MIN], [-1].  A result [q] is an [int], no larger
    in magnitude than [a]; multiplying it back by [b] does not wrap, and
    what is left of [a] is smaller in magnitude than [b]. *)
Theorem divide_defined_and_bounded (a b : Z) :
  Int.in_range a -> Int.in_range b ->
  ((exists q, divide a b = Some q) <->
   b <> 0 /\ ~ (a = Int.min_signed /\ b = -1)) /\
  (forall q, divide a b = Some q ->
     Int.in_range q /\ Z.abs q <= Z.abs a /\
     multiply q b = q * b /\
     Z.abs (subtract a (multiply q b)) < Z.abs b).
Proof.
  intros Ha Hb. split.
  - unfold divide, Int.divs.
    destruct (Z.eqb_spec b 0) as [Hb0 | Hb0]; simpl.
    + split; [intros [q H]; discriminate H | intros [H _]; contradiction].
    + destruct (Z.eqb_spec a Int.min_signed) as [Ha0 | Ha0],
               (Z.eqb_spec b (-1)) as [Hb1 | Hb1]; simpl;
        (split;
         [ intros [q H]; first [discriminate H | split; [assumption | tauto]]
         | intros [_ H]; first [exfalso; tauto | eexists; reflexivity] ]).
  - intros q Hq.
    assert (Hb0 : b <> 0).
    { intros ->. unfold divide, Int.divs in Hq. simpl in Hq. discriminate Hq. }
    assert (Hrep : Int.in_range (a ÷ b)).
    { destruct (quot_in_range_iff a b Ha Hb0) as [_ Hback]. apply Hback.
      intros [Hmin Hm1]. unfold divide, Int.divs in Hq.
      rewrite Hmin, Hm1 in Hq. simpl in Hq. discriminate Hq. }
    unfold divide in Hq. rewrite (divs_representable a b Ha Hb0 Hrep) in Hq.
    injection Hq as <-.
    destruct (quot_within_dividend a b Hb0) as [Hq1 Hq2].
    destruct (quot_truncates a b Hb0) as [Hr1 _].
    assert (Hqb : Int.in_range ((a ÷ b) * b)).
    { apply in_range_iff. apply (proj1 (in_range_iff a)) in Ha. lia. }
    assert (Hleft : Int.in_range (a - (a ÷ b) * b)).
    { apply in_range_iff. apply (proj1 (in_range_iff b)) in Hb. lia. }
    unfold multiply, subtract, Int.mul, Int.sub.
    rewrite (signed_exact _ Hqb), (signed_exact _ Hleft).
    repeat split; assumption || apply Hrep.
Qed.

(** [-7] by [2]: the quotient is [-3] and [-1] is left. *)
Lemma divide_defined_and_bounded_witness :
  Int.in_range (-7) /\ Int.in_range 2 /\
  (exists q, divide (-7) 2 = Some q).
Proof.
  assert (Ha : Int.in_range (-7)) by (split; discriminate).
  assert (Hb : Int.in_range 2) by (split; discriminate).
  split; [exact Ha |]. split; [exact Hb |].
  apply (proj1 (divide_defined_and_bounded (-7) 2 Ha Hb)).
  split; [discriminate |]. intros [H _]. discriminate H.
Defined.

(** X12.  On [int] values the helpers have the neutral and absorbing
    elements of the integers, without any wrap-around: [a + 0], [a - 0],
    [a * 1] and [a / 1] are [a]; [a * 0] and [a - a] are [0]; and [add] and
    [multiply] do not depend on the order of their arguments. *)
Theorem helpers_neutral_elements (a b : Z) :
  Int.in_range a ->
  add a 0 = a /\ subtract a 0 = a /\ multiply a 1 = a /\
  divide a 1 = Some a /\ multiply a 0 = 0 /\ subtract a a = 0 /\
  add a b = add b a /\ multiply a b = multiply b a.
Proof.
  intros Ha.
  unfold add, subtract, multiply, divide, Int.add, Int.sub, Int.mul.
  rewrite Z.add_0_r, Z.sub_0_r, Z.mul_1_r, Z.mul_0_r, Z.sub_diag.
  rewrite (signed_exact a Ha).
  rewrite (Z.add_comm b a), (Z.mul_comm b a).
  repeat split; try reflexivity.
  rewrite <- (Z.quot_1_r a) at 2.
  apply divs_representable; [exact Ha | discriminate |].
  rewrite Z.quot_1_r. exact Ha.
Qed.

(** [INT_MIN]. *)
Lemma helpers_neutral_elements_witness :
  Int.in_range (-2147483648) /\
  divide (-2147483648) 1 = Some (-2147483648).
Proof.
  assert (Ha : Int.in_range (-2147483648)) by (split; discriminate).
  split; [exact Ha |].
  exact (proj1 (proj2 (proj2 (proj2
    (helpers_neutral_elements (-2147483648) 0 Ha))))).
Defined.

(** X13.  With wrap-around, [add] and [multiply] regroup freely and
    [multiply] distributes over [add] and [subtract]: the results agree for
    all arguments, whether or not an intermediate value wraps. *)
Theorem helpers_regroup (a b c : Z) :
  add (add a b) c = add a (add b c) /\
  multiply (multiply a b) c = multiply a (multiply b c) /\
  multiply a (add b c) = add (multiply a b) (multiply a c) /\
  multiply a (subtract b c) = subtract (multiply a b) (multiply a c).
Proof.
  unfold add, subtract, multiply, Int.add, Int.sub, Int.mul.
  repeat split; apply signed_eq_of_congruent.
  - rewrite Zplus_mod, signed_congruent, <- Zplus_mod.
    rewrite (Zplus_mod a (Int.signed (b + c))), signed_congruent, <- Zplus_mod.
    f_equal. lia.
  - rewrite Zmult_mod, signed_congruent, <- Zmult_mod.
    rewrite (Zmult_mod a (Int.signed (b * c))), signed_congruent, <- Zmult_mod.
    f_equal. lia.
  - rewrite Zmult_mod, signed_congruent, <- Zmult_mod.
    rewrite (Zplus_mod (Int.signed (a * b))), !signed_congruent, <- Zplus_mod.
    f_equal. lia.
  - rewrite Zmult_mod, signed_congruent, <- Zmult_mod.
    rewrite (Zminus_mod (Int.signed (a * b))), !signed_congruent, <- Zminus_mod.
    f_equal. lia.
Qed.
